(** * Hamiltonian Neural Network ([deepchem/models/torch_models/hnn.py])

    A shallow embedding of the module [HNN] and of its wrapper [HNNModel].

    Tensors are a shape with row-major contents over an abstract scalar
    type; the tensor objects a caller can see live in a store indexed by
    references, because [requires_grad_] updates its argument in place.
    The multilayer perceptron [self.net] and its backward function are
    parameters of the development; the part of the autograd engine that
    [torch.autograd.grad] needs is modelled by a chain of backward nodes. *)

From stdpp Require Import gmap list strings.

Set Default Proof Using "Type".

(** ** Arrays: a shape and row-major contents *)

Record Array (A : Type) : Type := mkArray { shape : list nat; data : list A }.
Arguments mkArray {A} _ _.
Arguments shape {A} _.
Arguments data {A} _.

(** Number of elements of a shape: the product of its dimensions. *)
Definition numel (sh : list nat) : nat := foldr Nat.mul 1 sh.

(** The dimensions before the last one (the [...] of [t[..., a:b]]). *)
Definition lead (sh : list nat) : list nat := removelast sh.

Definition wf_array {A} (a : Array A) : Prop := length (data a) = numel (shape a).

(** Exceptions raised by the modelled code. *)
Inductive exn : Type :=
  | IndexError (msg : string)
  | RuntimeError (msg : string).

Inductive result (A : Type) : Type :=
  | Ok (a : A)
  | Raise (e : exn).
Arguments Ok {A} _.
Arguments Raise {A} _.

Definition result_map {A B} (f : A -> B) (r : result A) : result B :=
  match r with Ok a => Ok (f a) | Raise e => Raise e end.

(** [map_rows n d f l] cuts [l] into [n] rows of width [d] and applies [f]
    to every row: an operation along the last axis of a tensor with [n]
    rows. *)
Fixpoint map_rows {A B} (n d : nat) (f : list A -> list B) (l : list A) : list B :=
  match n with
  | 0 => []
  | S n' => f (take d l) ++ map_rows n' d f (drop d l)
  end.

(** Row [i] of width [d]. *)
Definition row {A} (d i : nat) (l : list A) : list A := take d (drop (i * d) l).

(** Rows of two tensors laid side by side, [torch.cat(..., dim=-1)] on
    the contents. *)
Fixpoint cat_rows {A} (n da db : nat) (xa xb : list A) : list A :=
  match n with
  | 0 => []
  | S n' => take da xa ++ take db xb ++ cat_rows n' da db (drop da xa) (drop db xb)
  end.

(** [a[..., :k]]. A slice bound past the end is clamped, as Python slices
    are; a tensor without axes cannot be indexed. *)
Definition slice_to {A} (k : nat) (a : Array A) : result (Array A) :=
  match last (shape a) with
  | None => Raise (IndexError "too many indices for tensor of dimension 0")
  | Some d =>
      Ok (mkArray (lead (shape a) ++ [k `min` d])
                  (map_rows (numel (lead (shape a))) d (take k) (data a)))
  end.

(** [a[..., k:]]. *)
Definition slice_from {A} (k : nat) (a : Array A) : result (Array A) :=
  match last (shape a) with
  | None => Raise (IndexError "too many indices for tensor of dimension 0")
  | Some d =>
      Ok (mkArray (lead (shape a) ++ [d - k])
                  (map_rows (numel (lead (shape a))) d (drop k) (data a)))
  end.

(** [torch.cat([a, b], dim=-1)]: all dimensions but the last must agree.
    (PyTorch also lets a tensor of shape [(0,)] be concatenated with
    anything; for two operands with equal leading dimensions that rule
    gives the same result as the one below.) *)
Definition cat_last {A} (a b : Array A) : result (Array A) :=
  match last (shape a), last (shape b) with
  | Some da, Some db =>
      if decide (lead (shape a) = lead (shape b))
      then Ok (mkArray (lead (shape a) ++ [da + db])
                       (cat_rows (numel (lead (shape a))) da db (data a) (data b)))
      else Raise (RuntimeError "Sizes of tensors must match except in dimension -1")
  | _, _ => Raise (RuntimeError "zero-dimensional tensor cannot be concatenated")
  end.

(** [a.squeeze(-1)]: drops the last axis when its size is 1. *)
Definition squeeze_last {A} (a : Array A) : Array A :=
  match last (shape a) with
  | Some 1 => mkArray (lead (shape a)) (data a)
  | _ => a
  end.

(** [z.shape[-1]]. *)
Definition shape_last (sh : list nat) : result nat :=
  match last sh with
  | Some d => Ok d
  | None => Raise (IndexError "tuple index out of range")
  end.

(** ** Tensors, the autograd graph and the store *)

Definition loc : Type := nat.

Section Torch.

(** Scalars of the tensors ([torch.float32] in the source). *)
Context {F : Type}.
Variables (fzero fone : F) (fadd : F -> F -> F) (fneg : F -> F).

(** A node of the backward graph. [Input l] is the edge that ends at the
    tensor object [l]; [Untracked] ends a path at an operand that does
    not require gradients; [Backward vjp next] is the backward function
    of a unary operation ([vjp] maps the gradient of its output to the
    gradient of its input) followed by the node of its input; [Opaque]
    stands for the nodes of tensors whose backward function this
    development does not describe (the results of differentiation with
    [create_graph=True] and what is computed from them). *)
Inductive GradFn : Type :=
  | Input (l : loc)
  | Untracked
  | Backward (vjp : Array F -> Array F) (next : GradFn)
  | Opaque.

Record Tensor : Type := mkTensor {
  value : Array F;
  requires_grad : bool;
  grad_fn : option GradFn
}.

(** A tensor created from data: no history. *)
Definition leaf (v : Array F) (rg : bool) : Tensor := mkTensor v rg None.

(** The state: the tensor objects the caller holds references to, and the
    [training] flag of the [HNN] module ([nn.Module.training]). *)
Record World : Type := mkWorld {
  tensors : gmap loc Tensor;
  training : bool
}.

(** Computations read and update the state and may raise; the state
    reached when an exception is raised is kept, as in Python. *)
Definition M (A : Type) : Type := World -> result A * World.

Definition ret {A} (a : A) : M A := fun w => (Ok a, w).
Definition raise {A} (e : exn) : M A := fun w => (Raise e, w).
Definition bind {A B} (m : M A) (k : A -> M B) : M B :=
  fun w => match m w with
           | (Ok a, w') => k a w'
           | (Raise e, w') => (Raise e, w')
           end.
Definition lift {A} (r : result A) : M A := fun w => (r, w).

(** Computations that leave the state as it is. *)
Definition pure {A} (m : M A) : Prop := forall w, (m w).2 = w.

(** Computations that neither read nor write the [training] flag: from
    two states with the same tensors they give the same result and the
    same tensors, and leave the flag as it was. *)
Definition mode_blind {A} (m : M A) : Prop :=
  forall ts b1 b2,
    (m (mkWorld ts b1)).1 = (m (mkWorld ts b2)).1 /\
    tensors (m (mkWorld ts b1)).2 = tensors (m (mkWorld ts b2)).2 /\
    training (m (mkWorld ts b1)).2 = b1.

Notation "x <<- m ;; k" := (bind m (fun x => k))
  (at level 100, m at next level, right associativity, only parsing).

Definition deref (l : loc) : M Tensor :=
  fun w => match tensors w !! l with
           | Some t => (Ok t, w)
           | None => (Raise (RuntimeError "dangling reference"), w)
           end.

Definition store (l : loc) (t : Tensor) : M unit :=
  fun w => (Ok tt, mkWorld (<[l := t]> (tensors w)) (training w)).

(** A new tensor object at a reference that is not in use. *)
Definition alloc (t : Tensor) : M loc :=
  fun w => let l := fresh (dom (tensors w)) in
           (Ok l, mkWorld (<[l := t]> (tensors w)) (training w)).

(** [t.requires_grad_(b)]: sets the flag of the object itself and returns
    the same object. Only a leaf may have the flag cleared. *)
Definition requires_grad_ (l : loc) (b : bool) : M loc :=
  t <<- deref l ;;
  if negb b && bool_decide (is_Some (grad_fn t))
  then raise (RuntimeError "you can only change requires_grad flags of leaf variables")
  else _ <<- store l (mkTensor (value t) b (grad_fn t)) ;; ret l.

(** The state after the flag of the object at [l], which holds [t], was
    set. *)
Definition set_requires_grad (l : loc) (t : Tensor) (w : World) : World :=
  mkWorld (<[l := mkTensor (value t) true (grad_fn t)]> (tensors w)) (training w).

(** The node at which the history of an operation joins the operand held
    at [l]. *)
Definition edge_of (l : loc) (t : Tensor) : GradFn :=
  if requires_grad t then Input l else Untracked.

(** A unary differentiable operation on a local tensor. *)
Definition unary (f vjp : Array F -> Array F) (t : Tensor) : Tensor :=
  mkTensor (f (value t)) (requires_grad t)
           (if requires_grad t
            then Some (Backward vjp (default Untracked (grad_fn t)))
            else None).

(** A tensor computed from tensors that carry no modelled history. *)
Definition derived (rg : bool) (v : Array F) : Tensor :=
  mkTensor v rg (if rg then Some Opaque else None).

(** [t.squeeze(-1)]; its backward function restores the shape. *)
Definition squeeze (t : Tensor) : Tensor :=
  unary squeeze_last (fun g => mkArray (shape (value t)) (data g)) t.

(** [t.sum()]: a tensor without axes; its backward function broadcasts
    the incoming scalar over the shape of [t]. *)
Definition sum_all (a : Array F) : Array F := mkArray [] [foldr fadd fzero (data a)].

Definition tsum (t : Tensor) : Tensor :=
  unary sum_all
        (fun g => mkArray (shape (value t))
                          (replicate (numel (shape (value t))) (default fzero (head (data g)))))
        t.

Definition ones_like (a : Array F) : Array F :=
  mkArray (shape a) (replicate (numel (shape a)) fone).

(** Reverse pass from a node down to the tensor object [l]. *)
Fixpoint backprop (l : loc) (node : GradFn) (g : Array F) : result (Array F) :=
  match node with
  | Input l' =>
      if decide (l = l') then Ok g
      else Raise (RuntimeError "One of the differentiated Tensors appears to not have been used in the graph")
  | Untracked =>
      Raise (RuntimeError "One of the differentiated Tensors appears to not have been used in the graph")
  | Backward vjp next => backprop l next (vjp g)
  | Opaque => Raise (RuntimeError "backward function outside the model")
  end.

(** [torch.autograd.grad(out, input, create_graph=True)[0]]. The output
    must be a tracked scalar, the input must require gradients and take
    part in the history of the output, and the engine rejects a gradient
    whose shape is not that of the input. With [create_graph=True] the
    result is itself part of a graph. *)
Definition grad (out : Tensor) (input : loc) : M Tensor :=
  t <<- deref input ;;
  if negb (requires_grad out)
  then raise (RuntimeError "element 0 of tensors does not require grad and does not have a grad_fn")
  else if negb (bool_decide (numel (shape (value out)) = 1))
  then raise (RuntimeError "grad can be implicitly created only for scalar outputs")
  else if negb (requires_grad t)
  then raise (RuntimeError "One of the differentiated Tensors does not require grad")
  else match backprop input (default Untracked (grad_fn out)) (ones_like (value out)) with
       | Raise e => raise e
       | Ok g =>
           if bool_decide (shape g = shape (value t))
           then ret (derived true g)
           else raise (RuntimeError "Function returned an invalid gradient")
       end.

(** [t[..., :k]], [t[..., k:]], [-t] and [torch.cat([a, b], dim=-1)] on
    local tensors. *)
Definition tslice_to (k : nat) (t : Tensor) : M Tensor :=
  v <<- lift (slice_to k (value t)) ;; ret (derived (requires_grad t) v).

Definition tslice_from (k : nat) (t : Tensor) : M Tensor :=
  v <<- lift (slice_from k (value t)) ;; ret (derived (requires_grad t) v).

Definition neg_array (a : Array F) : Array F := mkArray (shape a) (map fneg (data a)).

Definition tneg (t : Tensor) : Tensor := derived (requires_grad t) (neg_array (value t)).

Definition tcat (a b : Tensor) : M Tensor :=
  v <<- lift (cat_last (value a) (value b)) ;;
  ret (derived (requires_grad a || requires_grad b) v).

(** ** The module [HNN] *)

(** [self.net], a [MultilayerPerceptron] with output width 1, is defined
    outside this file. Its forward function is the parameter [net]: a
    function of the contents of its input for fixed weights, [None] when
    the layers reject the input (a last axis that is not [d_input]). Its
    backward function is [net_vjp x g]: the gradient with respect to the
    input [x], given the gradient [g] of the output. The weights are
    trainable, so the output of the network is always tracked. *)
Variable net : Array F -> option (Array F).
Variable net_vjp : Array F -> Array F -> Array F.

(** [self.net(z)] *)
Definition net_call (z : loc) : M Tensor :=
  t <<- deref z ;;
  match net (value t) with
  | None => raise (RuntimeError "mat1 and mat2 shapes cannot be multiplied")
  | Some y => ret (mkTensor y true (Some (Backward (net_vjp (value t)) (edge_of z t))))
  end.

(** [HNN.hamiltonian] *)
Definition hamiltonian (z : loc) : M Tensor :=
  y <<- net_call z ;;
  let H := squeeze y in
  ret H.

(** What [symplectic_gradient] makes of one row [r] of the gradient, cut
    at [k]: the part from [k] on, then the negated part before [k]. *)
Definition dz_dt_row (k : nat) (r : list F) : list F :=
  drop k r ++ map fneg (take k r).

(** [HNN.symplectic_gradient] *)
Definition symplectic_gradient (z : loc) : M Tensor :=
  (* Ensure z requires gradients *)
  zt <<- deref z ;;
  z <<- (if negb (requires_grad zt) then requires_grad_ z true else ret z) ;;
  y <<- net_call z ;;
  let H := squeeze y in
  grad_H <<- grad (tsum H) z ;;
  zt <<- deref z ;;
  d <<- lift (shape_last (shape (value zt))) ;;
  let dim := d / 2 in
  dH_dq <<- tslice_to dim grad_H ;;
  dH_dp <<- tslice_from dim grad_H ;;
  let dq_dt := dH_dp in
  let dp_dt := tneg dH_dq in
  tcat dq_dt dp_dt.

(** [HNN.forward]: the body is a single call, whatever the mode. *)
Definition forward (z : loc) : M Tensor :=
  symplectic_gradient z.

(** [nn.Module.eval] and [nn.Module.train] on the module. *)
Definition eval_mode : M unit :=
  fun w => (Ok tt, mkWorld (tensors w) false).

Definition train_mode : M unit :=
  fun w => (Ok tt, mkWorld (tensors w) true).

(** ** The wrapper [HNNModel] *)

Section Wrapper.

(** Scalars of the NumPy array given to the wrapper, and their conversion
    to the scalars of the tensors ([dtype=torch.float32]). *)
Context {A : Type}.
Variable cast : A -> F.

(** [torch.tensor(X, dtype=torch.float32, device=self.device)]: a new
    leaf holding a converted copy of the array. *)
Definition tensor_of (X : Array A) : Tensor :=
  leaf (mkArray (shape X) (map cast (data X))) false.

Definition torch_tensor (X : Array A) : M loc := alloc (tensor_of X).

(** [t.detach()], [t.cpu()] and [t.numpy()]. Devices are not modelled;
    [numpy] refuses a tensor that requires gradients. *)
Definition detach (t : Tensor) : Tensor := leaf (value t) false.
Definition cpu (t : Tensor) : Tensor := t.
Definition numpy (t : Tensor) : M (Array F) :=
  if requires_grad t
  then raise (RuntimeError "Can't call numpy() on Tensor that requires grad")
  else ret (value t).

(** [HNNModel.predict_hamiltonian] *)
Definition predict_hamiltonian (X : Array A) : M (Array F) :=
  _ <<- eval_mode ;;
  X_tensor <<- torch_tensor X ;;
  H <<- hamiltonian X_tensor ;;
  numpy (cpu (detach H)).

End Wrapper.

(** [HNNModel.symplectic_gradient]: delegates to the module. *)
Definition model_symplectic_gradient (z : loc) : M Tensor :=
  symplectic_gradient z.

End Torch.

(** ** A concrete network, for running the definitions

    Integer scalars and the energy [H(r) = sum of the squares of r], whose
    gradient at [r] is [2 * r]; [d_input] is the width the network
    accepts. *)
Module Demo.

Definition energy (r : list Z) : list Z :=
  [foldr Z.add 0%Z (map (fun v => (v * v)%Z) r)].

Fixpoint scale_rows (n d : nat) (x g : list Z) : list Z :=
  match n with
  | 0 => []
  | S n' => map (fun v => (2 * v * default 0 (head g))%Z) (take d x)
            ++ scale_rows n' d (drop d x) (tail g)
  end.

Definition net (d_input : nat) (x : Array Z) : option (Array Z) :=
  if decide (last (shape x) = Some d_input)
  then Some (mkArray (lead (shape x) ++ [1])
                     (map_rows (numel (lead (shape x))) d_input energy (data x)))
  else None.

Definition net_vjp (d_input : nat) (x g : Array Z) : Array Z :=
  mkArray (shape x) (scale_rows (numel (lead (shape x))) d_input (data x) (data g)).

(** A state with one tensor object, at reference 0. *)
Definition world (z : Array Z) (rg tr : bool) : World (F:=Z) :=
  mkWorld {[ 0 := leaf z rg ]} tr.

Definition symplectic_gradient (d_input : nat) : loc -> M Tensor :=
  symplectic_gradient 0%Z 1%Z Z.add Z.opp (net d_input) (net_vjp d_input).

Definition hamiltonian (d_input : nat) : loc -> M Tensor :=
  hamiltonian (net d_input) (net_vjp d_input).

Definition forward (d_input : nat) : loc -> M Tensor :=
  forward 0%Z 1%Z Z.add Z.opp (net d_input) (net_vjp d_input).

Definition predict_hamiltonian (d_input : nat) : Array Z -> M (Array Z) :=
  predict_hamiltonian (net d_input) (net_vjp d_input) (fun v : Z => v).

End Demo.


(** * Properties *)

(** ** Shapes and rows *)

Lemma numel_snoc (l : list nat) (d : nat) : numel (l ++ [d]) = numel l * d.
Proof.
  unfold numel. induction l as [|x l IH]; simpl; [lia|].
  rewrite IH. lia.
Qed.

Lemma lead_snoc (l : list nat) (d : nat) : lead (l ++ [d]) = l.
Proof. apply removelast_last. Qed.

Lemma shape_last_snoc (l : list nat) (d : nat) : shape_last (l ++ [d]) = Ok d.
Proof. unfold shape_last. by rewrite last_snoc. Qed.

Lemma numel_squeeze_last {A} (a : Array A) :
  numel (shape (squeeze_last a)) = numel (shape a).
Proof.
  unfold squeeze_last. destruct (last (shape a)) as [d|] eqn:Hl; [|done].
  destruct d as [|[|d]]; try done.
  apply last_Some in Hl as [l' ->]. simpl.
  rewrite lead_snoc, numel_snoc. lia.
Qed.

Lemma squeeze_last_snoc_1 {A} (l : list nat) (xs : list A) :
  squeeze_last (mkArray (l ++ [1]) xs) = mkArray l xs.
Proof. unfold squeeze_last. simpl. by rewrite last_snoc, lead_snoc. Qed.

Lemma length_map_rows {A B} (f : list A -> list B) (m d n : nat) (l : list A) :
  (forall r, length r = d -> length (f r) = m) ->
  length l = n * d ->
  length (map_rows n d f l) = n * m.
Proof.
  intros Hf. revert l. induction n as [|n IH]; intros l Hl; simpl; [done|].
  rewrite length_app, IH, Hf; [lia| |].
  - rewrite length_take. lia.
  - rewrite length_drop. lia.
Qed.

Lemma map_map_rows {A B C} (h : B -> C) (f : list A -> list B) (n d : nat) (l : list A) :
  map h (map_rows n d f l) = map_rows n d (fun r => map h (f r)) l.
Proof.
  revert l. induction n as [|n IH]; intros l; simpl; [done|].
  by rewrite map_app, IH.
Qed.

(** Two row-wise results laid side by side are the row-wise result of the
    two functions applied to the same row. *)
Lemma cat_rows_map_rows {A B} (f g : list A -> list B) (n d da db : nat) (l : list A) :
  (forall r, length r = d -> length (f r) = da) ->
  (forall r, length r = d -> length (g r) = db) ->
  length l = n * d ->
  cat_rows n da db (map_rows n d f l) (map_rows n d g l)
  = map_rows n d (fun r => f r ++ g r) l.
Proof.
  intros Hf Hg. revert l. induction n as [|n IH]; intros l Hl; simpl; [done|].
  assert (length (take d l) = d) as Hr by (rewrite length_take; lia).
  rewrite !take_app_length', !drop_app_length' by (symmetry; auto).
  rewrite IH by (rewrite length_drop; lia).
  by rewrite <- app_assoc.
Qed.

(** Entry [j] of row [i] of a row-wise result. *)
Lemma lookup_map_rows {A B} (f : list A -> list B) (m d n i j : nat) (l : list A) :
  (forall r, length r = d -> length (f r) = m) ->
  length l = n * d ->
  i < n -> j < m ->
  map_rows n d f l !! (i * m + j) = f (row d i l) !! j.
Proof.
  intros Hf. revert l i. induction n as [|n IH]; intros l i Hl Hi Hj; [lia|].
  assert (length (take d l) = d) as Hr by (rewrite length_take; lia).
  simpl. destruct i as [|i].
  - unfold row. simpl. rewrite drop_0.
    apply lookup_app_l. by rewrite Hf.
  - rewrite lookup_app_r by (rewrite Hf by auto; simpl; lia).
    rewrite Hf by auto.
    replace (S i * m + j - m) with (i * m + j) by lia.
    rewrite IH; [|rewrite length_drop; lia|lia|done].
    unfold row. rewrite drop_drop. reflexivity.
Qed.

Lemma length_row {A} (d n i : nat) (l : list A) :
  length l = n * d -> i < n -> length (row d i l) = d.
Proof.
  intros Hl Hi. unfold row. rewrite length_take, length_drop. nia.
Qed.

Lemma lookup_row {A} (d i j : nat) (l : list A) :
  j < d -> row d i l !! j = l !! (i * d + j).
Proof.
  intros Hj. unfold row. by rewrite lookup_take_lt, lookup_drop.
Qed.

(** ** Runs of the module *)

Section Facts.

Context {F : Type}.
Variables (fzero fone : F) (fadd : F -> F -> F) (fneg : F -> F).
Variable net : Array F -> option (Array F).
Variable net_vjp : Array F -> Array F -> Array F.

Implicit Types (t : @Tensor F) (w : @World F) (z l : loc) (y g : Array F).

Local Abbreviation hamiltonian := (hamiltonian net net_vjp).
Local Abbreviation net_call := (net_call net net_vjp).
Local Abbreviation symplectic_gradient :=
  (symplectic_gradient fzero fone fadd fneg net net_vjp).
Local Abbreviation forward := (forward fzero fone fadd fneg net net_vjp).
Local Abbreviation grad := (grad fone).
Local Abbreviation tsum := (tsum fzero fadd).
Local Abbreviation ones_like := (ones_like fone).
Local Abbreviation dz_dt_row := (dz_dt_row fneg).
Local Abbreviation pure m := (pure (F:=F) m).

Lemma bind_ok {A B} (m : M (F:=F) A) (k : A -> M B) w w' (a : A) :
  m w = (Ok a, w') -> bind m k w = k a w'.
Proof. intros H. unfold bind. by rewrite H. Qed.

Lemma bind_raise {A B} (m : M (F:=F) A) (k : A -> M B) w w' (e : exn) :
  m w = (Raise e, w') -> bind m k w = (Raise e, w').
Proof. intros H. unfold bind. by rewrite H. Qed.

Lemma deref_ok l t w :
  tensors w !! l = Some t -> deref l w = (Ok t, w).
Proof. intros H. unfold deref. by rewrite H. Qed.

Lemma net_call_ok z t y w :
  tensors w !! z = Some t ->
  net (value t) = Some y ->
  net_call z w
  = (Ok (mkTensor y true (Some (Backward (net_vjp (value t)) (edge_of z t)))), w).
Proof.
  intros Hz Hy. unfold net_call.
  rewrite (bind_ok _ _ _ _ _ (deref_ok _ _ _ Hz)). by rewrite Hy.
Qed.

Lemma hamiltonian_ok z t y w :
  tensors w !! z = Some t ->
  net (value t) = Some y ->
  hamiltonian z w
  = (Ok (squeeze (mkTensor y true (Some (Backward (net_vjp (value t)) (edge_of z t))))), w).
Proof.
  intros Hz Hy. unfold hamiltonian.
  by rewrite (bind_ok _ _ _ _ _ (net_call_ok _ _ _ _ Hz Hy)).
Qed.

(** The reverse pass through [sum], [squeeze] and the network hands the
    network's backward function a tensor of ones. *)
Lemma grad_ok z t y w :
  tensors w !! z = Some t ->
  requires_grad t = true ->
  shape (net_vjp (value t) (ones_like y)) = shape (value t) ->
  grad (tsum (squeeze (mkTensor y true (Some (Backward (net_vjp (value t)) (edge_of z t)))))) z w
  = (Ok (derived true (net_vjp (value t) (ones_like y))), w).
Proof.
  intros Hz Hrg Hsh. unfold grad.
  rewrite (bind_ok _ _ _ _ _ (deref_ok _ _ _ Hz)).
  simpl. rewrite Hrg. simpl.
  unfold edge_of. rewrite Hrg. simpl. rewrite decide_True by done.
  rewrite numel_squeeze_last. fold (ones_like y).
  by rewrite bool_decide_eq_true_2.
Qed.

(** An operand that was not tracked when the network ran cannot be
    differentiated afterwards, whatever its flag says by then. *)
Lemma grad_untracked_raises z t t' y w :
  tensors w !! z = Some t' ->
  requires_grad t = false ->
  exists e,
    grad (tsum (squeeze (mkTensor y true (Some (Backward (net_vjp (value t)) (edge_of z t)))))) z w
    = (Raise e, w).
Proof.
  intros Hz Hrg. unfold grad.
  rewrite (bind_ok _ _ _ _ _ (deref_ok _ _ _ Hz)).
  simpl. unfold edge_of. rewrite Hrg. simpl.
  destruct (requires_grad t'); simpl; eauto.
Qed.

(** The contents of the result of [symplectic_gradient] for a gradient
    [g] over [n] rows of width [d]. *)
Lemma dz_dt_data (n d : nat) (xs : list F) :
  length xs = n * d ->
  cat_rows n (d - d / 2) ((d / 2) `min` d)
           (map_rows n d (drop (d / 2)) xs)
           (map fneg (map_rows n d (take (d / 2)) xs))
  = map_rows n d (dz_dt_row (d / 2)) xs.
Proof.
  intros Hl. rewrite map_map_rows.
  apply (cat_rows_map_rows (drop (d / 2)) (fun r => map fneg (take (d / 2) r))); [| |done].
  - intros r Hr. rewrite length_drop. lia.
  - intros r Hr. rewrite length_map, length_take. lia.
Qed.

Lemma half_split (d : nat) : d - d / 2 + (d / 2) `min` d = d.
Proof.
  pose proof (Nat.div_mod_eq d 2). lia.
Qed.

(** The run of [symplectic_gradient] on an input the network accepts. *)
Lemma symplectic_gradient_run z t y w (ld : list nat) (d : nat) :
  tensors w !! z = Some t ->
  shape (value t) = ld ++ [d] ->
  net (value t) = Some y ->
  shape (net_vjp (value t) (ones_like y)) = ld ++ [d] ->
  symplectic_gradient z w
  = (Ok (derived true
           (mkArray (ld ++ [d])
              (cat_rows (numel ld) (d - d / 2) ((d / 2) `min` d)
                 (map_rows (numel ld) d (drop (d / 2))
                           (data (net_vjp (value t) (ones_like y))))
                 (map fneg (map_rows (numel ld) d (take (d / 2))
                           (data (net_vjp (value t) (ones_like y)))))))),
     if requires_grad t then w else set_requires_grad z t w).
Proof.
  intros Hz Hsh Hy Hg.
  set (t' := mkTensor (value t) true (grad_fn t)).
  set (w' := if requires_grad t then w else set_requires_grad z t w).
  assert (tensors w' !! z = Some t') as Hz'.
  { subst w' t'. destruct t as [v [] gf]; simpl in *; [done|].
    apply lookup_insert_eq. }
  unfold symplectic_gradient.
  rewrite (bind_ok _ _ _ _ _ (deref_ok _ _ _ Hz)).
  rewrite (bind_ok _ _ w w' z).
  2:{ subst w'. destruct (requires_grad t) eqn:Hrg; simpl; [done|].
      unfold requires_grad_. rewrite (bind_ok _ _ _ _ _ (deref_ok _ _ _ Hz)).
      reflexivity. }
  rewrite (bind_ok _ _ _ _ _ (net_call_ok z t' y w' Hz' Hy)).
  rewrite (bind_ok _ _ _ _ _ (grad_ok z t' y w' Hz' eq_refl ltac:(simpl; congruence))).
  rewrite (bind_ok _ _ _ _ _ (deref_ok _ _ _ Hz')).
  simpl. rewrite Hsh, shape_last_snoc.
  unfold bind, lift, tslice_to, tslice_from, tcat, bind, lift, slice_to, slice_from; simpl.
  rewrite Hg, last_snoc, lead_snoc. simpl.
  unfold cat_last. simpl. rewrite !last_snoc, !lead_snoc.
  rewrite decide_True by done. 
  unfold ret. simpl.
  change (Nat.divmod d 1 0 1).1 with (d / 2).
  by rewrite half_split.
Qed.

Lemma pure_ret {A} (a : A) : pure (ret a).
Proof. done. Qed.

Lemma pure_raise {A} (e : exn) : pure (raise (A:=A) e).
Proof. done. Qed.

Lemma pure_lift {A} (r : result A) : pure (lift r).
Proof. done. Qed.

Lemma pure_bind {A B} (m : M A) (k : A -> M B) :
  pure m -> (forall a, pure (k a)) -> pure (bind m k).
Proof.
  intros Hm Hk w. unfold bind. specialize (Hm w).
  destruct (m w) as [[a|e] w1]; simpl in *; subst; [apply Hk|done].
Qed.

Lemma pure_deref l : pure (deref l).
Proof. intros w. unfold deref. by destruct (tensors w !! l). Qed.

Lemma pure_net_call z : pure (net_call z).
Proof.
  apply pure_bind; [apply pure_deref|]. intros t.
  destruct (net (value t)); [apply pure_ret|apply pure_raise].
Qed.

Lemma pure_hamiltonian z : pure (hamiltonian z).
Proof. apply pure_bind; [apply pure_net_call|]. intros y. apply pure_ret. Qed.

Lemma pure_grad (out : Tensor) z : pure (grad out z).
Proof.
  apply pure_bind; [apply pure_deref|]. intros t.
  repeat (case_match; try apply pure_raise; try apply pure_ret).
Qed.

Lemma pure_tslice_to (k : nat) t : pure (tslice_to k t).
Proof. apply pure_bind; [apply pure_lift|]. intros v. apply pure_ret. Qed.

Lemma pure_tslice_from (k : nat) t : pure (tslice_from k t).
Proof. apply pure_bind; [apply pure_lift|]. intros v. apply pure_ret. Qed.

Lemma pure_tcat (a b : Tensor) : pure (tcat a b).
Proof. apply pure_bind; [apply pure_lift|]. intros v. apply pure_ret. Qed.
(** After the flag of [z] is settled, the rest of [symplectic_gradient]
    only reads the state. *)
Lemma symplectic_gradient_state z t w :
  tensors w !! z = Some t ->
  (symplectic_gradient z w).2 = if requires_grad t then w else set_requires_grad z t w.
Proof.
  intros Hz. unfold symplectic_gradient.
  rewrite (bind_ok _ _ _ _ _ (deref_ok _ _ _ Hz)).
  rewrite (bind_ok _ _ w (if requires_grad t then w else set_requires_grad z t w) z).
  2:{ destruct (requires_grad t) eqn:Hrg; simpl; [done|].
      unfold requires_grad_. rewrite (bind_ok _ _ _ _ _ (deref_ok _ _ _ Hz)).
      reflexivity. }
  apply pure_bind; [apply pure_net_call|]. intros y.
  apply pure_bind; [apply pure_grad|]. intros g.
  apply pure_bind; [apply pure_deref|]. intros zt.
  apply pure_bind; [apply pure_lift|]. intros d.
  apply pure_bind; [apply pure_tslice_to|]. intros dq.
  apply pure_bind; [apply pure_tslice_from|]. intros dp.
  apply pure_tcat.
Qed.

(** Entries of the result, row by row: for a gradient [xs] over [n] rows
    of width [d], the first [d - d/2] entries of a row of the result are
    the entries of the gradient from [d/2] on, and the last [d/2] entries
    are the negated first [d/2] entries of the gradient. *)
Lemma lookup_dz_dt_front (n d i j : nat) (xs : list F) :
  length xs = n * d -> i < n -> j < d - d / 2 ->
  map_rows n d (dz_dt_row (d / 2)) xs !! (i * d + j) = xs !! (i * d + d / 2 + j).
Proof.
  intros Hl Hi Hj.
  rewrite (lookup_map_rows _ d d n i j) by
    (try done; try lia; intros r Hr; unfold dz_dt_row;
     rewrite length_app, length_drop, length_map, length_take;
     pose proof (Nat.div_mod_eq d 2); lia).
  unfold dz_dt_row.
  rewrite lookup_app_l
    by (rewrite length_drop, (length_row d n) by done; lia).
  rewrite lookup_drop, lookup_row by lia. f_equal. lia.
Qed.

Lemma lookup_dz_dt_back (n d i j : nat) (xs : list F) :
  length xs = n * d -> i < n -> j < d / 2 ->
  map_rows n d (dz_dt_row (d / 2)) xs !! (i * d + (d - d / 2) + j)
  = fneg <$> xs !! (i * d + j).
Proof.
  intros Hl Hi Hj. pose proof (Nat.div_mod_eq d 2) as Hd.
  rewrite <- Nat.add_assoc.
  rewrite (lookup_map_rows _ d d n i (d - d / 2 + j)) by
    (try done; try lia; intros r Hr; unfold dz_dt_row;
     rewrite length_app, length_drop, length_map, length_take; lia).
  unfold dz_dt_row.
  rewrite lookup_app_r
    by (rewrite length_drop, (length_row d n) by done; lia).
  rewrite length_drop, (length_row d n) by done.
  replace (d - d / 2 + j - (d - d / 2)) with j by lia.
  change (map fneg) with (fmap (M:=list) fneg).
  rewrite list_lookup_fmap, lookup_take_lt, lookup_row by lia. done.
Qed.

Lemma half_even (k : nat) : (2 * k) / 2 = k.
Proof. pose proof (Nat.div_mod_eq (2 * k) 2). pose proof (Nat.mod_upper_bound (2 * k) 2). lia. Qed.

Lemma half_odd (k : nat) : (2 * k + 1) / 2 = k.
Proof.
  pose proof (Nat.div_mod_eq (2 * k + 1) 2).
  pose proof (Nat.mod_upper_bound (2 * k + 1) 2). lia.
Qed.

Lemma slice_to_snoc (k d : nat) (ld : list nat) g :
  shape g = ld ++ [d] ->
  slice_to k g = Ok (mkArray (ld ++ [k `min` d]) (map_rows (numel ld) d (take k) (data g))).
Proof. intros Hg. unfold slice_to. by rewrite Hg, last_snoc, lead_snoc. Qed.

Lemma slice_from_snoc (k d : nat) (ld : list nat) g :
  shape g = ld ++ [d] ->
  slice_from k g = Ok (mkArray (ld ++ [d - k]) (map_rows (numel ld) d (drop k) (data g))).
Proof. intros Hg. unfold slice_from. by rewrite Hg, last_snoc, lead_snoc. Qed.

(** The result of [symplectic_gradient] in terms of the two slices of
    the gradient, for any width [d] of the last axis. *)
Lemma symplectic_gradient_split z t y w (ld : list nat) (d : nat) :
  tensors w !! z = Some t ->
  shape (value t) = ld ++ [d] ->
  net (value t) = Some y ->
  shape (net_vjp (value t) (ones_like y)) = ld ++ [d] ->
  exists out dq dp,
    symplectic_gradient z w
    = (Ok out, if requires_grad t then w else set_requires_grad z t w) /\
    slice_to (d / 2) (net_vjp (value t) (ones_like y)) = Ok dq /\
    shape dq = ld ++ [d / 2] /\
    slice_from (d / 2) (net_vjp (value t) (ones_like y)) = Ok dp /\
    shape dp = ld ++ [d - d / 2] /\
    cat_last dp (neg_array fneg dq) = Ok (value out) /\
    shape (value out) = ld ++ [d] /\
    (length (data (net_vjp (value t) (ones_like y))) = numel ld * d ->
     data (value out)
     = map_rows (numel ld) d (dz_dt_row (d / 2)) (data (net_vjp (value t) (ones_like y)))).
Proof.
  intros Hz Hsh Hy Hg.
  pose proof (Nat.div_mod_eq d 2) as Hd.
  eexists _, _, _. split; [by apply (symplectic_gradient_run z t y w ld d)|].
  split; [by apply slice_to_snoc|].
  split; [cbn [shape]; f_equal; f_equal; lia|].
  split; [by apply slice_from_snoc|].
  split; [done|].
  split.
  { unfold cat_last. cbn [shape data neg_array]. rewrite !last_snoc, !lead_snoc.
    rewrite decide_True by done. cbn [value derived].
    by rewrite half_split. }
  split; [done|].
  intros Hl. cbn [value derived data]. by apply dz_dt_data.
Qed.

(** ** Properties of [HNN]

    In the statements below [t] is the tensor object the reference [z]
    points to, [y] is what the network returns on it, and
    [net_vjp (value t) (ones_like y)] is the gradient the reverse pass
    computes for [sum(H)]. The hypothesis on its shape is what every
    backward function guarantees: a gradient has the shape of the tensor
    it is the gradient of. *)

(** C2: in training mode, [forward] on an input of shape (..., 2k) that
    the network accepts returns what [symplectic_gradient] returns, a
    tensor of shape (..., 2k). *)
Theorem forward_training_mode z t y w (ld : list nat) (k : nat) :
  training w = true ->
  tensors w !! z = Some t ->
  shape (value t) = ld ++ [2 * k] ->
  net (value t) = Some y ->
  shape (net_vjp (value t) (ones_like y)) = shape (value t) ->
  forward z w = symplectic_gradient z w /\
  exists out w',
    forward z w = (Ok out, w') /\ shape (value out) = ld ++ [2 * k].
Proof.
  intros _ Hz Hsh Hy Hg. split; [done|].
  rewrite Hsh in Hg.
  destruct (symplectic_gradient_split z t y w ld (2 * k) Hz Hsh Hy Hg)
    as (out & dq & dp & Hrun & _ & _ & _ & _ & _ & Hout & _).
  by exists out, (if requires_grad t then w else set_requires_grad z t w).
Qed.

(** C3: for an input whose last axis has even width 2k, the result of
    [symplectic_gradient] is built from the gradient [g] of
    [sum(hamiltonian(z))] with respect to [z]: [dH/dq] is the first k
    entries of each row of [g], [dH/dp] the last k, and the result is
    [cat(dH/dp, -dH/dq)] along the last axis. *)
Theorem symplectic_gradient_hamilton_equations z t y w (ld : list nat) (k : nat) :
  tensors w !! z = Some t ->
  shape (value t) = ld ++ [2 * k] ->
  net (value t) = Some y ->
  shape (net_vjp (value t) (ones_like y)) = shape (value t) ->
  wf_array (net_vjp (value t) (ones_like y)) ->
  exists out w' H (grad_H : Tensor) dH_dq dH_dp,
    symplectic_gradient z w = (Ok out, w') /\
    hamiltonian z w' = (Ok H, w') /\
    grad (tsum H) z w' = (Ok grad_H, w') /\
    slice_to k (value grad_H) = Ok dH_dq /\ shape dH_dq = ld ++ [k] /\
    slice_from k (value grad_H) = Ok dH_dp /\ shape dH_dp = ld ++ [k] /\
    cat_last dH_dp (neg_array fneg dH_dq) = Ok (value out) /\
    forall i j, i < numel ld -> j < k ->
      data dH_dq !! (i * k + j) = data (value grad_H) !! (i * (2 * k) + j) /\
      data dH_dp !! (i * k + j) = data (value grad_H) !! (i * (2 * k) + k + j) /\
      data (value out) !! (i * (2 * k) + j)
      = data (value grad_H) !! (i * (2 * k) + k + j) /\
      data (value out) !! (i * (2 * k) + k + j)
      = fneg <$> data (value grad_H) !! (i * (2 * k) + j).
Proof.
  intros Hz Hsh Hy Hg Hwf. rewrite Hsh in Hg.
  unfold wf_array in Hwf. rewrite Hg, numel_snoc in Hwf.
  destruct (symplectic_gradient_split z t y w ld (2 * k) Hz Hsh Hy Hg)
    as (out & dq & dp & Hrun & Hdq & Hsdq & Hdp & Hsdp & Hcat & Hout & Hdata).
  rewrite half_even in *. replace (2 * k - k) with k in * by lia.
  specialize (Hdata Hwf).
  set (t' := mkTensor (value t) true (grad_fn t)).
  set (w' := if requires_grad t then w else set_requires_grad z t w) in *.
  assert (tensors w' !! z = Some t') as Hz'.
  { subst w' t'. destruct t as [v [] gf]; simpl in *; [done|].
    apply lookup_insert_eq. }
  exists out, w'. eexists _, _. exists dq, dp.
  split; [done|].
  split; [exact (hamiltonian_ok z t' y w' Hz' Hy)|].
  split; [apply (grad_ok z t' y w' Hz' eq_refl); simpl; congruence|].
  cbn [value derived].
  repeat (split; [done|]).
  intros i j Hi Hj.
  rewrite (slice_to_snoc k (2 * k) ld _ Hg) in Hdq.
  rewrite (slice_from_snoc k (2 * k) ld _ Hg) in Hdp.
  injection Hdq as <-. injection Hdp as <-. cbn [data].
  split.
  { rewrite (lookup_map_rows _ k (2 * k) (numel ld) i j)
      by (try done; intros r Hr; rewrite length_take; lia).
    by rewrite lookup_take_lt, lookup_row by lia. }
  split.
  { rewrite (lookup_map_rows _ k (2 * k) (numel ld) i j)
      by (try done; intros r Hr; rewrite length_drop; lia).
    rewrite lookup_drop, lookup_row by lia. f_equal. lia. }
  rewrite Hdata.
  pose proof (lookup_dz_dt_front (numel ld) (2 * k) i j _ Hwf Hi) as Hf.
  pose proof (lookup_dz_dt_back (numel ld) (2 * k) i j _ Hwf Hi) as Hb.
  rewrite half_even in Hf, Hb. replace (2 * k - k) with k in * by lia.
  split; [apply Hf; lia|apply Hb; lia].
Qed.

(** C4: for an input whose last axis has even width 2k, the result of
    [symplectic_gradient] has exactly the shape of the input. *)
Theorem symplectic_gradient_shape_even z t y w (ld : list nat) (k : nat) :
  tensors w !! z = Some t ->
  shape (value t) = ld ++ [2 * k] ->
  net (value t) = Some y ->
  shape (net_vjp (value t) (ones_like y)) = shape (value t) ->
  exists out w',
    symplectic_gradient z w = (Ok out, w') /\
    shape (value out) = shape (value t).
Proof.
  intros Hz Hsh Hy Hg. rewrite Hsh in Hg.
  destruct (symplectic_gradient_split z t y w ld (2 * k) Hz Hsh Hy Hg)
    as (out & dq & dp & Hrun & _ & _ & _ & _ & _ & Hout & _).
  exists out, (if requires_grad t then w else set_requires_grad z t w).
  by rewrite Hsh.
Qed.

(** C5: on an input whose [requires_grad] is false, [symplectic_gradient]
    succeeds: it sets the flag before the network is evaluated, so the
    energy it differentiates is tracked back to the input and [grad]
    returns. The energy of the same input evaluated before the flag was
    set could not be differentiated, even after setting the flag. *)
Theorem symplectic_gradient_enables_tracking z t y w (ld : list nat) (d : nat) :
  tensors w !! z = Some t ->
  requires_grad t = false ->
  shape (value t) = ld ++ [d] ->
  net (value t) = Some y ->
  shape (net_vjp (value t) (ones_like y)) = shape (value t) ->
  exists out w' t' H (grad_H : Tensor),
    symplectic_gradient z w = (Ok out, w') /\
    tensors w' !! z = Some t' /\ requires_grad t' = true /\
    hamiltonian z w' = (Ok H, w') /\
    grad (tsum H) z w' = (Ok grad_H, w') /\
    exists H0 e,
      hamiltonian z w = (Ok H0, w) /\
      grad (tsum H0) z w' = (Raise e, w').
Proof.
  intros Hz Hrg Hsh Hy Hg.
  pose proof Hg as Hg'. rewrite Hsh in Hg'.
  destruct (symplectic_gradient_split z t y w ld d Hz Hsh Hy Hg')
    as (out & dq & dp & Hrun & _).
  rewrite Hrg in Hrun.
  set (t' := mkTensor (value t) true (grad_fn t)).
  assert (tensors (set_requires_grad z t w) !! z = Some t') as Hz'
    by apply lookup_insert_eq.
  exists out, (set_requires_grad z t w), t'. eexists _, _.
  split; [done|]. split; [done|]. split; [done|].
  split; [exact (hamiltonian_ok z t' y _ Hz' Hy)|].
  split; [by apply (grad_ok z t' y _ Hz' eq_refl)|].
  destruct (grad_untracked_raises z t t' y _ Hz' Hrg) as [e He].
  eexists _, e. split; [exact (hamiltonian_ok z t y w Hz Hy)|exact He].
Qed.

(** C6: for fixed weights, the energy [hamiltonian] computes for an input
    does not depend on whether the input requires gradients: two states
    that differ only in the flag (and history) of the input give the same
    contents, or raise the same exception. *)
Theorem hamiltonian_ignores_requires_grad z (v : Array F) (b1 b2 : bool)
    (gf1 gf2 : option GradFn) (ts : gmap loc Tensor) (tr : bool) :
  result_map value (hamiltonian z (mkWorld (<[z := mkTensor v b1 gf1]> ts) tr)).1
  = result_map value (hamiltonian z (mkWorld (<[z := mkTensor v b2 gf2]> ts) tr)).1.
Proof.
  unfold hamiltonian, net_call, bind, deref. cbn [tensors].
  rewrite !lookup_insert_eq. cbn [value].
  by destruct (net v).
Qed.

(** C8: on an input whose last axis has odd width 2k+1,
    [symplectic_gradient] raises nothing: the gradient is cut at k, [dH/dq]
    is the first k entries of each row, [dH/dp] the remaining k+1, and the
    result is returned. *)
Theorem symplectic_gradient_odd_dimension z t y w (ld : list nat) (k : nat) :
  tensors w !! z = Some t ->
  shape (value t) = ld ++ [2 * k + 1] ->
  net (value t) = Some y ->
  shape (net_vjp (value t) (ones_like y)) = shape (value t) ->
  wf_array (net_vjp (value t) (ones_like y)) ->
  exists out w' dH_dq dH_dp,
    symplectic_gradient z w = (Ok out, w') /\
    slice_to ((2 * k + 1) / 2) (net_vjp (value t) (ones_like y)) = Ok dH_dq /\
    shape dH_dq = ld ++ [k] /\
    slice_from ((2 * k + 1) / 2) (net_vjp (value t) (ones_like y)) = Ok dH_dp /\
    shape dH_dp = ld ++ [k + 1] /\
    cat_last dH_dp (neg_array fneg dH_dq) = Ok (value out) /\
    forall i, i < numel ld ->
      (forall j, j < k + 1 ->
         data (value out) !! (i * (2 * k + 1) + j)
         = data (net_vjp (value t) (ones_like y)) !! (i * (2 * k + 1) + k + j)) /\
      (forall j, j < k ->
         data (value out) !! (i * (2 * k + 1) + (k + 1) + j)
         = fneg <$> data (net_vjp (value t) (ones_like y)) !! (i * (2 * k + 1) + j)).
Proof.
  intros Hz Hsh Hy Hg Hwf. rewrite Hsh in Hg.
  unfold wf_array in Hwf. rewrite Hg, numel_snoc in Hwf.
  destruct (symplectic_gradient_split z t y w ld (2 * k + 1) Hz Hsh Hy Hg)
    as (out & dq & dp & Hrun & Hdq & Hsdq & Hdp & Hsdp & Hcat & Hout & Hdata).
  specialize (Hdata Hwf).
  exists out, (if requires_grad t then w else set_requires_grad z t w), dq, dp.
  rewrite half_odd in Hsdq, Hsdp.
  replace (2 * k + 1 - k) with (k + 1) in Hsdp by lia.
  repeat (split; [done|]).
  intros i Hi.
  pose proof (lookup_dz_dt_front (numel ld) (2 * k + 1) i) as Hf.
  pose proof (lookup_dz_dt_back (numel ld) (2 * k + 1) i) as Hb.
  rewrite half_odd in Hdata, Hf, Hb.
  replace (2 * k + 1 - k) with (k + 1) in * by lia.
  rewrite Hdata. split; intros j Hj; [by apply Hf|by apply Hb].
Qed.

(** C9: for an input whose last axis has any width N, odd widths
    included, the result of [symplectic_gradient] has exactly the shape of
    the input: the slices [..., N//2:] and [..., :N//2] have widths
    N - N//2 and N//2, which add up to N. *)
Theorem symplectic_gradient_preserves_shape z t y w (ld : list nat) (N : nat) :
  tensors w !! z = Some t ->
  shape (value t) = ld ++ [N] ->
  net (value t) = Some y ->
  shape (net_vjp (value t) (ones_like y)) = shape (value t) ->
  exists out w' dH_dq dH_dp,
    symplectic_gradient z w = (Ok out, w') /\
    slice_to (N / 2) (net_vjp (value t) (ones_like y)) = Ok dH_dq /\
    shape dH_dq = ld ++ [N / 2] /\
    slice_from (N / 2) (net_vjp (value t) (ones_like y)) = Ok dH_dp /\
    shape dH_dp = ld ++ [N - N / 2] /\
    cat_last dH_dp (neg_array fneg dH_dq) = Ok (value out) /\
    shape (value out) = shape (value t) /\
    (wf_array (net_vjp (value t) (ones_like y)) -> wf_array (value out)).
Proof.
  intros Hz Hsh Hy Hg. rewrite Hsh in Hg.
  destruct (symplectic_gradient_split z t y w ld N Hz Hsh Hy Hg)
    as (out & dq & dp & Hrun & Hdq & Hsdq & Hdp & Hsdp & Hcat & Hout & Hdata).
  exists out, (if requires_grad t then w else set_requires_grad z t w), dq, dp.
  repeat (split; [done|]).
  split; [by rewrite Hsh|].
  unfold wf_array. rewrite Hg, Hout, numel_snoc. intros Hwf.
  rewrite (Hdata Hwf).
  apply length_map_rows; [|done].
  intros r Hr. unfold dz_dt_row.
  rewrite length_app, length_drop, length_map, length_take.
  pose proof (Nat.div_mod_eq N 2). lia.
Qed.

(** C10: [symplectic_gradient] sets [requires_grad] on the caller's own
    tensor object when the flag was off: after the call, whether it
    returned or raised, the reference [z] holds the same contents with the
    flag on, and nothing else in the state changed; when the flag was
    already on, the state is unchanged. *)
Theorem symplectic_gradient_sets_flag_in_place z t w :
  tensors w !! z = Some t ->
  if requires_grad t
  then (symplectic_gradient z w).2 = w
  else
    tensors (symplectic_gradient z w).2 !! z
    = Some (mkTensor (value t) true (grad_fn t)) /\
    (forall l, l ≠ z ->
       tensors (symplectic_gradient z w).2 !! l = tensors w !! l) /\
    training (symplectic_gradient z w).2 = training w.
Proof.
  intros Hz. rewrite (symplectic_gradient_state z t w Hz).
  destruct (requires_grad t); [done|].
  split; [apply lookup_insert_eq|].
  split; [|done].
  intros l Hl. by apply lookup_insert_ne.
Qed.

(** ** Properties of [HNNModel] *)

(** C7: for a batch [X] of shape (n, d) that the network accepts,
    [predict_hamiltonian] returns an array of shape (n,): the contents of
    [hamiltonian] applied to the tensor [X] is converted to. The module is
    left in evaluation mode and no tensor the caller holds is changed. *)
Theorem predict_hamiltonian_roundtrip {A} (cast : A -> F) (X : Array A) w y
    (n d : nat) :
  shape X = [n; d] ->
  net (value (tensor_of cast X)) = Some y ->
  shape y = [n; 1] ->
  wf_array y ->
  exists r w',
    predict_hamiltonian net net_vjp cast X w = (Ok r, w') /\
    shape r = [n] /\ wf_array r /\
    training w' = false /\
    (forall l t, tensors w !! l = Some t -> tensors w' !! l = Some t) /\
    forall w0 l,
      tensors w0 !! l = Some (tensor_of cast X) ->
      result_map value (hamiltonian l w0).1 = Ok r.
Proof.
  intros _ Hy Hsh Hwf.
  set (l := fresh (dom (tensors w))).
  set (w1 := mkWorld (<[l := tensor_of cast X]> (tensors w)) false).
  assert (tensors w1 !! l = Some (tensor_of cast X)) as Hl by apply lookup_insert_eq.
  assert (squeeze_last y = mkArray [n] (data y)) as Hsq.
  { destruct y as [sh xs]. simpl in Hsh. subst sh.
    apply (squeeze_last_snoc_1 [n]). }
  exists (squeeze_last y), w1.
  split.
  { unfold predict_hamiltonian, bind, eval_mode, torch_tensor, alloc.
    cbn [tensors training]. fold l. fold w1.
    by rewrite (hamiltonian_ok l _ y w1 Hl Hy). }
  split; [by rewrite Hsq|].
  split.
  { unfold wf_array in *. rewrite Hsq. cbn [shape data].
    rewrite Hwf, Hsh. unfold numel. simpl. lia. }
  split; [done|].
  split.
  { intros l' t Ht. cbn [tensors w1].
    rewrite lookup_insert_ne; [done|].
    intros <-. pose proof (is_fresh (dom (tensors w))) as Hfresh.
    apply Hfresh. apply elem_of_dom. by exists t. }
  intros w0 l0 Hl0. by rewrite (hamiltonian_ok l0 _ y w0 Hl0 Hy).
Qed.

End Facts.

(** ** Runs on the concrete network *)

(** C1: in evaluation mode [forward] does not return the energy. On the
    input [[3, 5]] of shape (1, 2), with the module in evaluation mode,
    it returns the symplectic gradient [[10, -6]] of shape (1, 2), as
    [symplectic_gradient] does, where [hamiltonian] gives [34] of shape
    (1,). *)
Theorem forward_eval_mode_returns_derivative :
  training (Demo.world (mkArray [1; 2] [3; 5]%Z) true false) = false /\
  result_map value (Demo.forward 2 0 (Demo.world (mkArray [1; 2] [3; 5]%Z) true false)).1
  = Ok (mkArray [1; 2] [10; -6]%Z) /\
  result_map value (Demo.symplectic_gradient 2 0 (Demo.world (mkArray [1; 2] [3; 5]%Z) true false)).1
  = Ok (mkArray [1; 2] [10; -6]%Z) /\
  result_map value (Demo.hamiltonian 2 0 (Demo.world (mkArray [1; 2] [3; 5]%Z) true false)).1
  = Ok (mkArray [1] [34]%Z).
Proof. vm_compute. done. Qed.


(** The theorems above at concrete inputs: the network of [Demo] with
    [d_input = 2] on the batch [[3, 5], [1, -2]], and with [d_input = 3]
    on [[1, 2, 3]]. *)

Lemma forward_training_mode_witness :
  Demo.forward 2 0 (Demo.world (mkArray [2; 2] [3; 5; 1; -2]%Z) false true)
  = Demo.symplectic_gradient 2 0 (Demo.world (mkArray [2; 2] [3; 5; 1; -2]%Z) false true) /\
  exists out w',
    Demo.forward 2 0 (Demo.world (mkArray [2; 2] [3; 5; 1; -2]%Z) false true)
    = (Ok out, w') /\
    shape (value out) = [2] ++ [2 * 1].
Proof.
  apply (forward_training_mode 0%Z 1%Z Z.add Z.opp (Demo.net 2) (Demo.net_vjp 2)
           0 (leaf (mkArray [2; 2] [3; 5; 1; -2]%Z) false)
           (mkArray [2; 1] [34; 5]%Z)
           (Demo.world (mkArray [2; 2] [3; 5; 1; -2]%Z) false true) [2] 1);
    vm_compute; reflexivity.
Defined.

Lemma symplectic_gradient_hamilton_equations_witness :
  exists out w' H (grad_H : Tensor) dH_dq dH_dp,
    Demo.symplectic_gradient 2 0 (Demo.world (mkArray [2; 2] [3; 5; 1; -2]%Z) false true)
    = (Ok out, w') /\
    Demo.hamiltonian 2 0 w' = (Ok H, w') /\
    grad 1%Z (tsum 0%Z Z.add H) 0 w' = (Ok grad_H, w') /\
    slice_to 1 (value grad_H) = Ok dH_dq /\ shape dH_dq = [2] ++ [1] /\
    slice_from 1 (value grad_H) = Ok dH_dp /\ shape dH_dp = [2] ++ [1] /\
    cat_last dH_dp (neg_array Z.opp dH_dq) = Ok (value out) /\
    forall i j, i < numel [2] -> j < 1 ->
      data dH_dq !! (i * 1 + j) = data (value grad_H) !! (i * (2 * 1) + j) /\
      data dH_dp !! (i * 1 + j) = data (value grad_H) !! (i * (2 * 1) + 1 + j) /\
      data (value out) !! (i * (2 * 1) + j)
      = data (value grad_H) !! (i * (2 * 1) + 1 + j) /\
      data (value out) !! (i * (2 * 1) + 1 + j)
      = Z.opp <$> data (value grad_H) !! (i * (2 * 1) + j).
Proof.
  apply (symplectic_gradient_hamilton_equations 0%Z 1%Z Z.add Z.opp
           (Demo.net 2) (Demo.net_vjp 2)
           0 (leaf (mkArray [2; 2] [3; 5; 1; -2]%Z) false)
           (mkArray [2; 1] [34; 5]%Z)
           (Demo.world (mkArray [2; 2] [3; 5; 1; -2]%Z) false true) [2] 1);
    vm_compute; reflexivity.
Defined.

Lemma symplectic_gradient_shape_even_witness :
  exists out w',
    Demo.symplectic_gradient 2 0 (Demo.world (mkArray [2; 2] [3; 5; 1; -2]%Z) false true)
    = (Ok out, w') /\
    shape (value out) = [2; 2].
Proof.
  apply (symplectic_gradient_shape_even 0%Z 1%Z Z.add Z.opp
           (Demo.net 2) (Demo.net_vjp 2)
           0 (leaf (mkArray [2; 2] [3; 5; 1; -2]%Z) false)
           (mkArray [2; 1] [34; 5]%Z)
           (Demo.world (mkArray [2; 2] [3; 5; 1; -2]%Z) false true) [2] 1);
    vm_compute; reflexivity.
Defined.

Lemma symplectic_gradient_enables_tracking_witness :
  exists out w' t' H (grad_H : Tensor),
    Demo.symplectic_gradient 2 0 (Demo.world (mkArray [2; 2] [3; 5; 1; -2]%Z) false true)
    = (Ok out, w') /\
    tensors w' !! 0 = Some t' /\ requires_grad t' = true /\
    Demo.hamiltonian 2 0 w' = (Ok H, w') /\
    grad 1%Z (tsum 0%Z Z.add H) 0 w' = (Ok grad_H, w') /\
    exists H0 e,
      Demo.hamiltonian 2 0 (Demo.world (mkArray [2; 2] [3; 5; 1; -2]%Z) false true)
      = (Ok H0, Demo.world (mkArray [2; 2] [3; 5; 1; -2]%Z) false true) /\
      grad 1%Z (tsum 0%Z Z.add H0) 0 w' = (Raise e, w').
Proof.
  apply (symplectic_gradient_enables_tracking 0%Z 1%Z Z.add Z.opp
           (Demo.net 2) (Demo.net_vjp 2)
           0 (leaf (mkArray [2; 2] [3; 5; 1; -2]%Z) false)
           (mkArray [2; 1] [34; 5]%Z)
           (Demo.world (mkArray [2; 2] [3; 5; 1; -2]%Z) false true) [2] 2);
    vm_compute; reflexivity.
Defined.

Lemma predict_hamiltonian_roundtrip_witness :
  exists r w',
    Demo.predict_hamiltonian 2 (mkArray [2; 2] [3; 5; 1; -2]%Z)
      (Demo.world (mkArray [1; 2] [0; 0]%Z) false true) = (Ok r, w') /\
    shape r = [2] /\ wf_array r /\
    training w' = false /\
    (forall l t,
       tensors (Demo.world (mkArray [1; 2] [0; 0]%Z) false true) !! l = Some t ->
       tensors w' !! l = Some t) /\
    forall w0 l,
      tensors w0 !! l
      = Some (tensor_of (fun v : Z => v) (mkArray [2; 2] [3; 5; 1; -2]%Z)) ->
      result_map value (Demo.hamiltonian 2 l w0).1 = Ok r.
Proof.
  apply (predict_hamiltonian_roundtrip (Demo.net 2) (Demo.net_vjp 2)
           (fun v : Z => v) (mkArray [2; 2] [3; 5; 1; -2]%Z)
           (Demo.world (mkArray [1; 2] [0; 0]%Z) false true)
           (mkArray [2; 1] [34; 5]%Z) 2 2);
    vm_compute; reflexivity.
Defined.

Lemma symplectic_gradient_odd_dimension_witness :
  exists out w' dH_dq dH_dp,
    Demo.symplectic_gradient 3 0 (Demo.world (mkArray [1; 3] [1; 2; 3]%Z) false true)
    = (Ok out, w') /\
    slice_to ((2 * 1 + 1) / 2)
      (Demo.net_vjp 3 (mkArray [1; 3] [1; 2; 3]%Z) (ones_like 1%Z (mkArray [1; 1] [14]%Z)))
    = Ok dH_dq /\
    shape dH_dq = [1] ++ [1] /\
    slice_from ((2 * 1 + 1) / 2)
      (Demo.net_vjp 3 (mkArray [1; 3] [1; 2; 3]%Z) (ones_like 1%Z (mkArray [1; 1] [14]%Z)))
    = Ok dH_dp /\
    shape dH_dp = [1] ++ [1 + 1] /\
    cat_last dH_dp (neg_array Z.opp dH_dq) = Ok (value out) /\
    forall i, i < numel [1] ->
      (forall j, j < 1 + 1 ->
         data (value out) !! (i * (2 * 1 + 1) + j)
         = data (Demo.net_vjp 3 (mkArray [1; 3] [1; 2; 3]%Z)
                   (ones_like 1%Z (mkArray [1; 1] [14]%Z))) !! (i * (2 * 1 + 1) + 1 + j)) /\
      (forall j, j < 1 ->
         data (value out) !! (i * (2 * 1 + 1) + (1 + 1) + j)
         = Z.opp <$> data (Demo.net_vjp 3 (mkArray [1; 3] [1; 2; 3]%Z)
                   (ones_like 1%Z (mkArray [1; 1] [14]%Z))) !! (i * (2 * 1 + 1) + j)).
Proof.
  apply (symplectic_gradient_odd_dimension 0%Z 1%Z Z.add Z.opp
           (Demo.net 3) (Demo.net_vjp 3)
           0 (leaf (mkArray [1; 3] [1; 2; 3]%Z) false)
           (mkArray [1; 1] [14]%Z)
           (Demo.world (mkArray [1; 3] [1; 2; 3]%Z) false true) [1] 1);
    vm_compute; reflexivity.
Defined.

Lemma symplectic_gradient_preserves_shape_witness :
  exists out w' dH_dq dH_dp,
    Demo.symplectic_gradient 3 0 (Demo.world (mkArray [1; 3] [1; 2; 3]%Z) false true)
    = (Ok out, w') /\
    slice_to (3 / 2)
      (Demo.net_vjp 3 (mkArray [1; 3] [1; 2; 3]%Z) (ones_like 1%Z (mkArray [1; 1] [14]%Z)))
    = Ok dH_dq /\
    shape dH_dq = [1] ++ [3 / 2] /\
    slice_from (3 / 2)
      (Demo.net_vjp 3 (mkArray [1; 3] [1; 2; 3]%Z) (ones_like 1%Z (mkArray [1; 1] [14]%Z)))
    = Ok dH_dp /\
    shape dH_dp = [1] ++ [3 - 3 / 2] /\
    cat_last dH_dp (neg_array Z.opp dH_dq) = Ok (value out) /\
    shape (value out) = [1; 3] /\
    (wf_array (Demo.net_vjp 3 (mkArray [1; 3] [1; 2; 3]%Z)
                 (ones_like 1%Z (mkArray [1; 1] [14]%Z))) ->
     wf_array (value out)).
Proof.
  apply (symplectic_gradient_preserves_shape 0%Z 1%Z Z.add Z.opp
           (Demo.net 3) (Demo.net_vjp 3)
           0 (leaf (mkArray [1; 3] [1; 2; 3]%Z) false)
           (mkArray [1; 1] [14]%Z)
           (Demo.world (mkArray [1; 3] [1; 2; 3]%Z) false true) [1] 3);
    vm_compute; reflexivity.
Defined.

Lemma symplectic_gradient_sets_flag_in_place_witness :
  tensors (Demo.symplectic_gradient 2 0
             (Demo.world (mkArray [2; 2] [3; 5; 1; -2]%Z) false true)).2 !! 0
  = Some (mkTensor (mkArray [2; 2] [3; 5; 1; -2]%Z) true None) /\
  (forall l, l ≠ 0 ->
     tensors (Demo.symplectic_gradient 2 0
                (Demo.world (mkArray [2; 2] [3; 5; 1; -2]%Z) false true)).2 !! l
     = tensors (Demo.world (mkArray [2; 2] [3; 5; 1; -2]%Z) false true) !! l) /\
  training (Demo.symplectic_gradient 2 0
              (Demo.world (mkArray [2; 2] [3; 5; 1; -2]%Z) false true)).2
  = training (Demo.world (mkArray [2; 2] [3; 5; 1; -2]%Z) false true).
Proof.
  apply (symplectic_gradient_sets_flag_in_place 0%Z 1%Z Z.add Z.opp
           (Demo.net 2) (Demo.net_vjp 2)
           0 (leaf (mkArray [2; 2] [3; 5; 1; -2]%Z) false)
           (Demo.world (mkArray [2; 2] [3; 5; 1; -2]%Z) false true)).
  vm_compute; reflexivity.
Defined.

(** * Further properties of the module and of the wrapper *)

Section Further.

Context {F : Type}.
Variables (fzero fone : F) (fadd : F -> F -> F) (fneg : F -> F).
Variable net : Array F -> option (Array F).
Variable net_vjp : Array F -> Array F -> Array F.

Implicit Types (t : @Tensor F) (w : @World F) (z l : loc) (y g : Array F).

Local Abbreviation hamiltonian := (hamiltonian net net_vjp).
Local Abbreviation net_call := (net_call net net_vjp).
Local Abbreviation symplectic_gradient :=
  (symplectic_gradient fzero fone fadd fneg net net_vjp).
Local Abbreviation forward := (forward fzero fone fadd fneg net net_vjp).
Local Abbreviation model_symplectic_gradient :=
  (model_symplectic_gradient fzero fone fadd fneg net net_vjp).
Local Abbreviation ones_like := (ones_like fone).
Local Abbreviation dz_dt_row := (dz_dt_row fneg).
Local Abbreviation pure m := (pure (F:=F) m).
Local Abbreviation mode_blind m := (mode_blind (F:=F) m).

(** ** The flag of the input and repeated calls *)

(** A call on an input whose flag is off is the call on the same input
    with the flag on. *)
Lemma symplectic_gradient_flag_on z t w :
  tensors w !! z = Some t ->
  requires_grad t = false ->
  symplectic_gradient z w = symplectic_gradient z (set_requires_grad z t w).
Proof.
  intros Hz Hrg.
  assert (tensors (set_requires_grad z t w) !! z
          = Some (mkTensor (value t) true (grad_fn t))) as Hz'
    by apply lookup_insert_eq.
  unfold symplectic_gradient.
  rewrite (bind_ok _ _ _ _ _ (deref_ok _ _ _ Hz)).
  rewrite (bind_ok _ _ _ _ _ (deref_ok _ _ _ Hz')).
  rewrite Hrg. cbn [negb requires_grad].
  rewrite (bind_ok _ _ w (set_requires_grad z t w) z).
  2:{ unfold requires_grad_. rewrite (bind_ok _ _ _ _ _ (deref_ok _ _ _ Hz)).
      reflexivity. }
  reflexivity.
Qed.

Lemma symplectic_gradient_dangling z w :
  tensors w !! z = None ->
  symplectic_gradient z w = (Raise (RuntimeError "dangling reference"), w).
Proof.
  intros Hz. unfold symplectic_gradient, bind, deref. by rewrite Hz.
Qed.

(** X1: a second call of [symplectic_gradient] on the same reference,
    from the state the first call left, gives the result of the first
    call and leaves that state as it is: the only effect of the function
    happens once. *)
Theorem symplectic_gradient_idempotent z w :
  symplectic_gradient z (symplectic_gradient z w).2 = symplectic_gradient z w.
Proof.
  destruct (tensors w !! z) as [t|] eqn:Hz.
  - rewrite (symplectic_gradient_state _ _ _ _ _ _ z t w Hz).
    destruct (requires_grad t) eqn:Hrg; [done|].
    symmetry. by apply symplectic_gradient_flag_on.
  - rewrite (symplectic_gradient_dangling z w Hz). cbn [snd].
    apply (symplectic_gradient_dangling z w Hz).
Qed.

(** X2: the result of [symplectic_gradient] and the state it leaves do not
    depend on whether the input had [requires_grad] set: the two states
    that differ only in that flag give the same tensor and end in the same
    state. *)
Theorem symplectic_gradient_flag_independent z (v : Array F)
    (gf : option GradFn) (ts : gmap loc Tensor) (tr : bool) :
  symplectic_gradient z (mkWorld (<[z := mkTensor v false gf]> ts) tr)
  = symplectic_gradient z (mkWorld (<[z := mkTensor v true gf]> ts) tr).
Proof.
  rewrite (symplectic_gradient_flag_on z (mkTensor v false gf)); [|apply lookup_insert_eq|done].
  unfold set_requires_grad. cbn [tensors training value grad_fn].
  by rewrite insert_insert_eq.
Qed.

(** X3: when the network rejects the input, [symplectic_gradient] raises
    the error of the network, and the flag of the input has been set all
    the same: the update is not undone. *)
Theorem symplectic_gradient_rejected_input z t w :
  tensors w !! z = Some t ->
  net (value t) = None ->
  symplectic_gradient z w
  = (Raise (RuntimeError "mat1 and mat2 shapes cannot be multiplied"),
     if requires_grad t then w else set_requires_grad z t w).
Proof.
  intros Hz Hnet.
  set (w' := if requires_grad t then w else set_requires_grad z t w).
  assert (tensors w' !! z = Some (mkTensor (value t) true (grad_fn t))) as Hz'.
  { subst w'. destruct t as [v [] gf]; simpl in *; [done|].
    apply lookup_insert_eq. }
  unfold symplectic_gradient.
  rewrite (bind_ok _ _ _ _ _ (deref_ok _ _ _ Hz)).
  rewrite (bind_ok _ _ w w' z).
  2:{ subst w'. destruct (requires_grad t) eqn:Hrg; simpl; [done|].
      unfold requires_grad_. rewrite (bind_ok _ _ _ _ _ (deref_ok _ _ _ Hz)).
      reflexivity. }
  apply bind_raise. unfold net_call.
  rewrite (bind_ok _ _ _ _ _ (deref_ok _ _ _ Hz')). cbn [value].
  by rewrite Hnet.
Qed.

(** ** The energy *)

(** X4: on an input of shape (..., d) for which the network returns a
    tensor of shape (..., 1), [hamiltonian] returns the same numbers with
    the last axis removed, shape (...), one energy per row (a tensor
    without axes for a single point), and the state is as before the
    call. *)
Theorem hamiltonian_shape z t y w (ld : list nat) (d : nat) :
  tensors w !! z = Some t ->
  shape (value t) = ld ++ [d] ->
  net (value t) = Some y ->
  shape y = ld ++ [1] ->
  exists H,
    hamiltonian z w = (Ok H, w) /\
    shape (value H) = ld /\
    data (value H) = data y /\
    (wf_array y -> length (data (value H)) = numel ld).
Proof.
  intros Hz _ Hy Hsh.
  eexists. split; [exact (hamiltonian_ok net net_vjp z t y w Hz Hy)|].
  destruct y as [sh xs]. cbn [shape] in Hsh. subst sh.
  unfold squeeze, unary. cbn [value]. rewrite squeeze_last_snoc_1.
  repeat split. unfold wf_array. cbn [shape data]. rewrite numel_snoc. lia.
Qed.

(** X5: [hamiltonian] never changes the state, whether it returns or
    raises: unlike [symplectic_gradient] it leaves the [requires_grad]
    flag of its input alone. *)
Theorem hamiltonian_leaves_state z w :
  (hamiltonian z w).2 = w.
Proof. apply pure_hamiltonian. Qed.

(** ** The mode of the module *)

Lemma mode_blind_ret {A} (a : A) : mode_blind (ret a).
Proof. by intros ts b1 b2. Qed.

Lemma mode_blind_raise {A} (e : exn) : mode_blind (raise (A:=A) e).
Proof. by intros ts b1 b2. Qed.

Lemma mode_blind_lift {A} (r : result A) : mode_blind (lift r).
Proof. by intros ts b1 b2. Qed.

Lemma mode_blind_bind {A B} (m : M A) (k : A -> M B) :
  mode_blind m -> (forall a, mode_blind (k a)) -> mode_blind (bind m k).
Proof.
  intros Hm Hk ts b1 b2. unfold bind.
  destruct (Hm ts b1 b2) as (H1 & H2 & H3).
  destruct (Hm ts b2 b1) as (_ & _ & H3').
  destruct (m (mkWorld ts b1)) as [r1 [ts1 tr1]].
  destruct (m (mkWorld ts b2)) as [r2 [ts2 tr2]].
  simpl in *. subst.
  destruct r2; [apply Hk|done].
Qed.

Lemma mode_blind_deref l : mode_blind (deref l).
Proof. intros ts b1 b2. unfold deref. simpl. by destruct (ts !! l). Qed.

Lemma mode_blind_store l t : mode_blind (store l t).
Proof. by intros ts b1 b2. Qed.

Lemma mode_blind_requires_grad_ l (b : bool) : mode_blind (requires_grad_ l b).
Proof.
  apply mode_blind_bind; [apply mode_blind_deref|]. intros t.
  case_match; [apply mode_blind_raise|].
  apply mode_blind_bind; [apply mode_blind_store|]. intros _. apply mode_blind_ret.
Qed.

Lemma mode_blind_net_call z : mode_blind (net_call z).
Proof.
  apply mode_blind_bind; [apply mode_blind_deref|]. intros t.
  destruct (net (value t)); [apply mode_blind_ret|apply mode_blind_raise].
Qed.

Lemma mode_blind_grad (out : Tensor) z : mode_blind (grad fone out z).
Proof.
  apply mode_blind_bind; [apply mode_blind_deref|]. intros t.
  repeat (case_match; try apply mode_blind_raise; try apply mode_blind_ret).
Qed.

Lemma mode_blind_symplectic_gradient z : mode_blind (symplectic_gradient z).
Proof.
  apply mode_blind_bind; [apply mode_blind_deref|]. intros zt.
  apply mode_blind_bind.
  { case_match; [apply mode_blind_requires_grad_|apply mode_blind_ret]. }
  intros z'.
  apply mode_blind_bind; [apply mode_blind_net_call|]. intros y.
  apply mode_blind_bind; [apply mode_blind_grad|]. intros g.
  apply mode_blind_bind; [apply mode_blind_deref|]. intros zt'.
  apply mode_blind_bind; [apply mode_blind_lift|]. intros d.
  apply mode_blind_bind.
  { apply mode_blind_bind; [apply mode_blind_lift|]. intros v. apply mode_blind_ret. }
  intros dq.
  apply mode_blind_bind.
  { apply mode_blind_bind; [apply mode_blind_lift|]. intros v. apply mode_blind_ret. }
  intros dp.
  apply mode_blind_bind; [apply mode_blind_lift|]. intros v. apply mode_blind_ret.
Qed.

(** X6: [forward] neither reads nor writes the mode of the module: called
    in training mode and in evaluation mode on the same tensors it returns
    the same result, leaves the same tensors, and leaves the mode as it
    was. *)
Theorem forward_mode_independent z (ts : gmap loc Tensor) (b1 b2 : bool) :
  (forward z (mkWorld ts b1)).1 = (forward z (mkWorld ts b2)).1 /\
  tensors (forward z (mkWorld ts b1)).2 = tensors (forward z (mkWorld ts b2)).2 /\
  training (forward z (mkWorld ts b1)).2 = b1.
Proof. apply mode_blind_symplectic_gradient. Qed.

(** X7: [HNNModel.symplectic_gradient] gives what [forward] gives, in
    whichever modes the two are called: going through [forward] or
    around it makes no difference to the result or to the tensors. *)
Theorem model_symplectic_gradient_is_forward z (ts : gmap loc Tensor) (b1 b2 : bool) :
  (model_symplectic_gradient z (mkWorld ts b1)).1 = (forward z (mkWorld ts b2)).1 /\
  tensors (model_symplectic_gradient z (mkWorld ts b1)).2
  = tensors (forward z (mkWorld ts b2)).2.
Proof.
  destruct (mode_blind_symplectic_gradient z ts b1 b2) as (H1 & H2 & _).
  by split.
Qed.

(** ** The wrapper *)

Section WrapperFacts.

Context {A : Type}.
Variable cast : A -> F.

Local Abbreviation predict_hamiltonian := (predict_hamiltonian net net_vjp cast).

(** The run of [predict_hamiltonian], whatever the network says. *)
Lemma predict_hamiltonian_run (X : Array A) w :
  predict_hamiltonian X w
  = (match net (value (tensor_of cast X)) with
     | Some y => Ok (squeeze_last y)
     | None => Raise (RuntimeError "mat1 and mat2 shapes cannot be multiplied")
     end,
     mkWorld (<[fresh (dom (tensors w)) := tensor_of cast X]> (tensors w)) false).
Proof.
  unfold predict_hamiltonian, bind, eval_mode, torch_tensor, alloc.
  cbn [tensors training].
  unfold hamiltonian, net_call, bind, deref. cbn [tensors].
  rewrite lookup_insert_eq.
  by destruct (net (value (tensor_of cast X))).
Qed.

(** X8: [predict_hamiltonian] always leaves the module in evaluation
    mode, whatever mode it was in and whether the call returns or raises,
    and it changes none of the tensors that existed before the call. *)
Theorem predict_hamiltonian_leaves_eval_mode (X : Array A) w :
  training (predict_hamiltonian X w).2 = false /\
  forall l t,
    tensors w !! l = Some t ->
    tensors (predict_hamiltonian X w).2 !! l = Some t.
Proof.
  rewrite predict_hamiltonian_run. cbn [snd tensors training].
  split; [done|]. intros l t Ht.
  rewrite lookup_insert_ne; [done|].
  intros <-. apply (is_fresh (dom (tensors w))).
  apply elem_of_dom. by exists t.
Qed.

(** X9: when the network rejects the batch, [predict_hamiltonian] raises
    the error of the network; the module has been switched to evaluation
    mode by then and stays there. *)
Theorem predict_hamiltonian_rejected_batch (X : Array A) w :
  net (value (tensor_of cast X)) = None ->
  (predict_hamiltonian X w).1
  = Raise (RuntimeError "mat1 and mat2 shapes cannot be multiplied") /\
  training (predict_hamiltonian X w).2 = false.
Proof.
  intros Hnet. rewrite predict_hamiltonian_run, Hnet. done.
Qed.

(** X10: what [predict_hamiltonian] returns depends on the batch alone:
    the mode of the module and the tensors that exist do not matter. *)
Theorem predict_hamiltonian_state_independent (X : Array A) (w1 w2 : World) :
  (predict_hamiltonian X w1).1 = (predict_hamiltonian X w2).1.
Proof. by rewrite !predict_hamiltonian_run. Qed.

End WrapperFacts.

(** ** Rows of the result *)

Lemma row_map_rows {A B} (f : list A -> list B) (m d n i : nat) (xs : list A) :
  (forall r, length r = d -> length (f r) = m) ->
  length xs = n * d ->
  i < n ->
  row m i (map_rows n d f xs) = f (row d i xs).
Proof.
  intros Hf Hl Hi. apply list_eq. intros j.
  destruct (decide (j < m)) as [Hj|Hj].
  - rewrite lookup_row by done. by apply lookup_map_rows.
  - unfold row at 1. rewrite lookup_take_ge by lia.
    symmetry. apply lookup_ge_None.
    rewrite Hf by (by apply (length_row d n)). lia.
Qed.

Lemma map_rows_id {A} (f : list A -> list A) (n d : nat) (xs : list A) :
  (forall r, f r = r) ->
  length xs = n * d ->
  map_rows n d f xs = xs.
Proof.
  intros Hf. revert xs. induction n as [|n IH]; intros xs Hl; simpl.
  - by destruct xs.
  - rewrite Hf, IH by (rewrite length_drop; lia). apply take_drop.
Qed.

Lemma length_dz_dt_row (d : nat) (r : list F) :
  length r = d -> length (dz_dt_row (d / 2) r) = d.
Proof.
  intros Hr. unfold dz_dt_row.
  rewrite length_app, length_drop, length_map, length_take.
  pose proof (Nat.div_mod_eq d 2). lia.
Qed.

(** X11: for any width N of the last axis, each row of the result of
    [symplectic_gradient] is made from the same row of the gradient and
    from nothing else: the entries from N//2 on, followed by the negated
    entries before N//2. Rows of a batch are never mixed. *)
Theorem symplectic_gradient_row_by_row z t y w (ld : list nat) (N : nat) :
  tensors w !! z = Some t ->
  shape (value t) = ld ++ [N] ->
  net (value t) = Some y ->
  shape (net_vjp (value t) (ones_like y)) = shape (value t) ->
  wf_array (net_vjp (value t) (ones_like y)) ->
  exists out w',
    symplectic_gradient z w = (Ok out, w') /\
    forall i, i < numel ld ->
      row N i (data (value out))
      = drop (N / 2) (row N i (data (net_vjp (value t) (ones_like y))))
        ++ map fneg (take (N / 2) (row N i (data (net_vjp (value t) (ones_like y))))).
Proof.
  intros Hz Hsh Hy Hg Hwf. rewrite Hsh in Hg.
  unfold wf_array in Hwf. rewrite Hg, numel_snoc in Hwf.
  destruct (symplectic_gradient_split fzero fone fadd fneg net net_vjp
              z t y w ld N Hz Hsh Hy Hg)
    as (out & dq & dp & Hrun & _ & _ & _ & _ & _ & _ & Hdata).
  exists out, (if requires_grad t then w else set_requires_grad z t w).
  split; [done|]. intros i Hi. rewrite (Hdata Hwf).
  apply (row_map_rows (dz_dt_row (N / 2)) N N (numel ld) i); [|done|done].
  apply length_dz_dt_row.
Qed.

(** X12: for width 1 (and no entry to negate) the result of
    [symplectic_gradient] is the gradient itself, unchanged. *)
Theorem symplectic_gradient_width_one z t y w (ld : list nat) :
  tensors w !! z = Some t ->
  shape (value t) = ld ++ [1] ->
  net (value t) = Some y ->
  shape (net_vjp (value t) (ones_like y)) = shape (value t) ->
  wf_array (net_vjp (value t) (ones_like y)) ->
  exists out w',
    symplectic_gradient z w = (Ok out, w') /\
    value out = net_vjp (value t) (ones_like y).
Proof.
  intros Hz Hsh Hy Hg Hwf. rewrite Hsh in Hg.
  unfold wf_array in Hwf. rewrite Hg, numel_snoc in Hwf.
  destruct (symplectic_gradient_split fzero fone fadd fneg net net_vjp
              z t y w ld 1 Hz Hsh Hy Hg)
    as (out & dq & dp & Hrun & _ & _ & _ & _ & _ & Hout & Hdata).
  exists out, (if requires_grad t then w else set_requires_grad z t w).
  split; [done|].
  specialize (Hdata Hwf).
  rewrite map_rows_id in Hdata; [|intros r; apply app_nil_r|done].
  destruct (value out) as [sh xs], (net_vjp (value t) (ones_like y)) as [sh' xs'].
  simpl in *. by subst.
Qed.

(** X13: on an empty batch (a leading dimension is 0)
    [symplectic_gradient] returns an empty tensor of the shape of the
    input, without raising. *)
Theorem symplectic_gradient_empty_batch z t y w (ld : list nat) (N : nat) :
  tensors w !! z = Some t ->
  shape (value t) = ld ++ [N] ->
  numel ld = 0 ->
  net (value t) = Some y ->
  shape (net_vjp (value t) (ones_like y)) = shape (value t) ->
  exists out w',
    symplectic_gradient z w = (Ok out, w') /\
    shape (value out) = shape (value t) /\
    data (value out) = [].
Proof.
  intros Hz Hsh Hn Hy Hg. rewrite Hsh in Hg.
  eexists _, _.
  split; [exact (symplectic_gradient_run fzero fone fadd fneg net net_vjp
                   z t y w ld N Hz Hsh Hy Hg)|].
  cbn [value derived shape data]. rewrite Hn, Hsh. done.
Qed.

End Further.

(** ** Conservation of the energy, in exact arithmetic *)







(** The theorems above at concrete inputs, on the network of [Demo]. *)

Lemma symplectic_gradient_rejected_input_witness :
  Demo.symplectic_gradient 2 0 (Demo.world (mkArray [1; 3] [1; 2; 3]%Z) false true)
  = (Raise (RuntimeError "mat1 and mat2 shapes cannot be multiplied"),
     set_requires_grad 0 (leaf (mkArray [1; 3] [1; 2; 3]%Z) false)
       (Demo.world (mkArray [1; 3] [1; 2; 3]%Z) false true)).
Proof.
  apply (symplectic_gradient_rejected_input 0%Z 1%Z Z.add Z.opp
           (Demo.net 2) (Demo.net_vjp 2)
           0 (leaf (mkArray [1; 3] [1; 2; 3]%Z) false)
           (Demo.world (mkArray [1; 3] [1; 2; 3]%Z) false true));
    vm_compute; reflexivity.
Defined.

Lemma hamiltonian_shape_witness :
  exists H,
    Demo.hamiltonian 2 0 (Demo.world (mkArray [2; 2] [3; 5; 1; -2]%Z) false true)
    = (Ok H, Demo.world (mkArray [2; 2] [3; 5; 1; -2]%Z) false true) /\
    shape (value H) = [2] /\
    data (value H) = [34; 5]%Z /\
    (wf_array (mkArray [2; 1] [34; 5]%Z) -> length (data (value H)) = numel [2]).
Proof.
  apply (hamiltonian_shape (Demo.net 2) (Demo.net_vjp 2)
           0 (leaf (mkArray [2; 2] [3; 5; 1; -2]%Z) false)
           (mkArray [2; 1] [34; 5]%Z)
           (Demo.world (mkArray [2; 2] [3; 5; 1; -2]%Z) false true) [2] 2);
    vm_compute; reflexivity.
Defined.

Lemma predict_hamiltonian_rejected_batch_witness :
  (Demo.predict_hamiltonian 2 (mkArray [1; 3] [1; 2; 3]%Z)
     (Demo.world (mkArray [1; 2] [0; 0]%Z) false true)).1
  = Raise (RuntimeError "mat1 and mat2 shapes cannot be multiplied") /\
  training (Demo.predict_hamiltonian 2 (mkArray [1; 3] [1; 2; 3]%Z)
              (Demo.world (mkArray [1; 2] [0; 0]%Z) false true)).2 = false.
Proof.
  apply (predict_hamiltonian_rejected_batch (Demo.net 2) (Demo.net_vjp 2)
           (fun v : Z => v) (mkArray [1; 3] [1; 2; 3]%Z)
           (Demo.world (mkArray [1; 2] [0; 0]%Z) false true)).
  vm_compute; reflexivity.
Defined.

Lemma symplectic_gradient_row_by_row_witness :
  exists out w',
    Demo.symplectic_gradient 3 0 (Demo.world (mkArray [1; 3] [1; 2; 3]%Z) false true)
    = (Ok out, w') /\
    forall i, i < numel [1] ->
      row 3 i (data (value out))
      = drop (3 / 2) (row 3 i [2; 4; 6]%Z)
        ++ map Z.opp (take (3 / 2) (row 3 i [2; 4; 6]%Z)).
Proof.
  apply (symplectic_gradient_row_by_row 0%Z 1%Z Z.add Z.opp
           (Demo.net 3) (Demo.net_vjp 3)
           0 (leaf (mkArray [1; 3] [1; 2; 3]%Z) false)
           (mkArray [1; 1] [14]%Z)
           (Demo.world (mkArray [1; 3] [1; 2; 3]%Z) false true) [1] 3);
    vm_compute; reflexivity.
Defined.

Lemma symplectic_gradient_width_one_witness :
  exists out w',
    Demo.symplectic_gradient 1 0 (Demo.world (mkArray [2; 1] [3; 5]%Z) false true)
    = (Ok out, w') /\
    value out = mkArray [2; 1] [6; 10]%Z.
Proof.
  apply (symplectic_gradient_width_one 0%Z 1%Z Z.add Z.opp
           (Demo.net 1) (Demo.net_vjp 1)
           0 (leaf (mkArray [2; 1] [3; 5]%Z) false)
           (mkArray [2; 1] [9; 25]%Z)
           (Demo.world (mkArray [2; 1] [3; 5]%Z) false true) [2]);
    vm_compute; reflexivity.
Defined.

Lemma symplectic_gradient_empty_batch_witness :
  exists out w',
    Demo.symplectic_gradient 2 0 (Demo.world (mkArray [0; 2] []) false true)
    = (Ok out, w') /\
    shape (value out) = [0; 2] /\
    data (value out) = [].
Proof.
  apply (symplectic_gradient_empty_batch 0%Z 1%Z Z.add Z.opp
           (Demo.net 2) (Demo.net_vjp 2)
           0 (leaf (mkArray [0; 2] []) false)
           (mkArray [0; 1] [])
           (Demo.world (mkArray [0; 2] []) false true) [0] 2);
    vm_compute; reflexivity.
Defined.

